(** * WMStats.RequestDataList: the request summary box

    A verification development for
    [src/couchapps/WMStats/_attachments/js/Views/HTMLList/T1/WMStats.RequestDataList.js].

    The file holds two functions: [format], which assembles an HTML
    fragment from a summary object, and [WMStats.RequestDataList], which
    writes that fragment into the elements selected by [$(containerDiv)].

    The JavaScript is embedded shallowly: values, objects and the
    global bindings live in an explicit [world]; expressions read the
    world and may throw, statements thread it. *)

From Stdlib Require Import ZArith Ascii.
From stdpp Require Import gmap strings pretty list fin_maps.

(** ** Values *)

Abbreviation loc := positive.
Abbreviation node := positive.
Abbreviation fn_id := positive.

(** Primitive values.  Numbers are the integer-valued ones (counts of
    requests, events and jobs); their text is their decimal notation, as
    the language prints integers below 10^21.  Fractions, NaN and the
    infinities are not represented. *)
Inductive prim :=
| PUndefined
| PNull
| PBool (b : bool)
| PNumber (n : Z)
| PString (s : string).

Inductive value :=
| VPrim (p : prim)
| VObject (l : loc).

Coercion VPrim : prim >-> value.

(** An object is its property map (own and inherited properties, as
    property lookup sees them) and, for a function object, the identity
    of its code. *)
Record object := Object {
  props : gmap string value;
  code : option fn_id
}.

(** The world: the bindings of the global object, the heap of objects,
    and the markup held by each element of the page. *)
Record world := World {
  globals : gmap string value;
  heap : gmap loc object;
  page : gmap node string
}.

Definition set_global (x : string) (v : value) (w : world) : world :=
  {| globals := <[x:=v]> (globals w); heap := heap w; page := page w |}.

Definition set_page (p : gmap node string) (w : world) : world :=
  {| globals := globals w; heap := heap w; page := p |}.

(** ** Exceptions and results *)

Inductive exn :=
| TypeError
| ReferenceError
| Thrown (v : value).

Inductive result (A : Type) :=
| Ok (a : A)
| Throw (e : exn).

Arguments Ok {A} a.
Arguments Throw {A} e.

#[global] Instance result_ret : MRet result := λ A a, Ok a.
#[global] Instance result_bind : MBind result := λ A B k r,
  match r with
  | Ok a => k a
  | Throw e => Throw e
  end.
#[global] Instance result_fmap : FMap result := λ A B f r,
  match r with
  | Ok a => Ok (f a)
  | Throw e => Throw e
  end.

(** ** The host *)

(** Modelled from the spec: the bodies of the Summary's accessor
    operations and the global selector utility [$] are not part of this
    file.  The accessors are the spec's read capabilities of the Summary:
    the code of a function object computes a value, or throws, from the
    receiver, the arguments and the heap, and changes nothing.  The
    selector utility resolves a container reference to the elements it
    designates, none when it does not resolve. *)
Class Host := {
  native : fn_id → value → list value → gmap loc object → result value;
  select : value → list node
}.

Section Language.
Context `{Host}.

(** ** Reading properties and calling methods *)

(** [base.name]: reading a property of [undefined] or [null] throws a
    TypeError, an absent property reads as [undefined].  Of the
    properties of primitives only the [length] of a string is
    represented; the program names no other. *)
Definition get_prop (h : gmap loc object) (base : value) (name : string)
  : result value :=
  match base with
  | VPrim PUndefined | VPrim PNull => Throw TypeError
  | VPrim (PString s) =>
      if decide (name = "length")
      then Ok (VPrim (PNumber (Z.of_nat (String.length s))))
      else Ok (VPrim PUndefined)
  | VPrim _ => Ok (VPrim PUndefined)
  | VObject l =>
      match h !! l with
      | Some o => Ok (default (VPrim PUndefined) (props o !! name))
      | None => Ok (VPrim PUndefined)
      end
  end.

Definition callable (h : gmap loc object) (f : value) : option fn_id :=
  match f with
  | VObject l => o ← h !! l; code o
  | VPrim _ => None
  end.

(** [base.name(args)]: the property is read, and called with [base] as
    receiver; calling what is not a function throws a TypeError. *)
Definition call_method (h : gmap loc object) (base : value) (name : string)
    (args : list value) : result value :=
  f ← get_prop h base name;
  match callable h f with
  | Some fid => native fid base args h
  | None => Throw TypeError
  end.

(** ** Conversion to text, as [+] with a string operand performs it *)

Definition to_text (p : prim) : string :=
  match p with
  | PUndefined => "undefined"
  | PNull => "null"
  | PBool true => "true"
  | PBool false => "false"
  | PNumber n => pretty n
  | PString s => s
  end.

(** One step of the conversion of an object to a primitive: the method
    [name], when callable, is called without arguments; a primitive
    result ends the conversion. *)
Definition try_conversion (h : gmap loc object) (o : value) (name : string)
  : result (option prim) :=
  f ← get_prop h o name;
  match callable h f with
  | Some fid =>
      r ← native fid o [] h;
      Ok (match r with VPrim p => Some p | VObject _ => None end)
  | None => Ok None
  end.

(** ToPrimitive without a hint, as [+] applies it: [valueOf] first, then
    [toString], a TypeError when neither yields a primitive. *)
Definition to_primitive (h : gmap loc object) (v : value) : result prim :=
  match v with
  | VPrim p => Ok p
  | VObject _ =>
      r ← try_conversion h v "valueOf";
      match r with
      | Some p => Ok p
      | None =>
          r' ← try_conversion h v "toString";
          match r' with
          | Some p => Ok p
          | None => Throw TypeError
          end
      end
  end.

(** ** Expressions

    The expressions of this file are literals, reads of properties and of
    [htmlstr], calls of the accessors and [+]: they read the world and,
    the accessors being read operations, change nothing. *)
Definition Expr (A : Type) : Type := world → result A.

Definition lit (v : value) : Expr value := λ _, Ok v.

Definition str (s : string) : Expr string := λ _, Ok s.

(** An identifier that no enclosing function declares resolves to a
    global binding; reading an unbound one throws a ReferenceError. *)
Definition var (x : string) : Expr value := λ w,
  match globals w !! x with
  | Some v => Ok v
  | None => Throw ReferenceError
  end.

Definition member (e : Expr value) (name : string) : Expr value := λ w,
  base ← e w; get_prop (heap w) base name.

Definition call (e : Expr value) (name : string) (args : list value)
  : Expr value := λ w,
  base ← e w; call_method (heap w) base name args.

(** ["literal" + e]: the left operand is a string, so the right one is
    converted to a primitive, then to text, and appended. *)
Definition str_plus (s : string) (e : Expr value) : Expr string := λ w,
  v ← e w; p ← to_primitive (heap w) v; Ok (s +:+ to_text p).

(** [e + "literal"] where [e] already is a string. *)
Definition plus_str (e : Expr string) (s : string) : Expr string := λ w,
  t ← e w; Ok (t +:+ s).

(** ** Statements *)
Definition Stmt (A : Type) : Type := world → result A * world.

#[global] Instance stmt_ret : MRet Stmt := λ A a w, (Ok a, w).
#[global] Instance stmt_bind : MBind Stmt := λ A B k m w,
  match m w with
  | (Ok a, w') => k a w'
  | (Throw e, w') => (Throw e, w')
  end.

(** [var x = e] for a local [x], and [return e]: the value of [e]. *)
Definition eval {A} (e : Expr A) : Stmt A := λ w, (e w, w).

(** [x = e] for an identifier [x] that no enclosing function declares:
    the assignment creates or overwrites the global binding [x]. *)
Definition assign (x : string) (e : Expr value) : Stmt unit := λ w,
  match e w with
  | Ok v => (Ok tt, set_global x v w)
  | Throw ex => (Throw ex, w)
  end.

(** [x += e] where [e] is a string: the old value of [x] is read first,
    then [e] is evaluated, the old value is converted to text, the two
    are appended and the result is stored in [x]. *)
Definition plus_assign (x : string) (e : Expr string) : Stmt unit := λ w,
  match (old ← var x w; s ← e w; p ← to_primitive (heap w) old;
         Ok (to_text p +:+ s)) with
  | Ok t => (Ok tt, set_global x (VPrim (PString t)) w)
  | Throw ex => (Throw ex, w)
  end.

Notation "x ::= e" := (assign x e) (at level 40, no associativity).
Notation "x +:= e" := (plus_assign x e) (at level 40, no associativity).
Notation "s +> e" := (str_plus s e) (at level 35, right associativity).
Notation "e <+ s" := (plus_str e s) (at level 36, left associativity).

(** ** The program *)

(** [format], lines 3 to 21 of the source.  [summaryStruct] is declared
    with [var]; [htmlstr] is not declared anywhere, so that it is a
    binding of the global object. *)
Definition format (summary : value) : Stmt value :=
  summaryStruct ← eval (member (lit summary) "summaryStruct");
  "htmlstr" ::= lit (PString "");;
  "htmlstr" +:= str "<div class='requestSummaryBox'>";;
  "htmlstr" +:= str "<ul>";;
  "htmlstr" +:= "<li> requests: " +> member (member (lit summary) "summaryStruct") "length" <+ "</li>";;
  "htmlstr" +:= "<li> total events: " +> member (member (lit summary) "summaryStruct") "totalEvents" <+ "</li>";;
  "htmlstr" +:= "<li> processed events: " +> member (member (lit summary) "summaryStruct") "processedEvents" <+ "</li>";;
  "htmlstr" +:= "<li> created: " +> call (lit summary) "getWMBSTotalJobs" [] <+ "</li>";;
  "htmlstr" +:= "<li> cooloff: " +> call (lit summary) "getTotalCooloff" [] <+ "</li>";;
  "htmlstr" +:= "<li> success: " +> call (lit summary) "getJobStatus" [VPrim (PString "success")] <+ "</li>";;
  "htmlstr" +:= "<li> failure: " +> call (lit summary) "getTotalFailure" [] <+ "</li>";;
  "htmlstr" +:= "<li> queued: " +> call (lit summary) "getTotalQueued" [] <+ "</li>";;
  "htmlstr" +:= "<li> running: " +> call (lit summary) "getJobStatus" [VPrim (PString "submit.running")] <+ "</li>";;
  "htmlstr" +:= "<li> pending: " +> call (lit summary) "getJobStatus" [VPrim (PString "submit.pending")] <+ "</li>";;
  "htmlstr" +:= str "</ul>";;
  "htmlstr" +:= str "</div>";;
  eval (var "htmlstr").

(** [.html(v)] on a set of elements: a string replaces the markup of
    each element of the set.  [format] returns the string it assembled,
    so no other kind of argument arises; for those nothing is written.
    The page holds the markup of each element on its own: that an element
    may lie inside another is not represented. *)
Definition set_html (target : list node) (v : value) : Stmt unit := λ w,
  match v with
  | VPrim (PString s) =>
      (Ok tt, set_page (foldr (λ n p, <[n:=s]> p) (page w) target) w)
  | _ => (Ok tt, w)
  end.

(** [WMStats.RequestDataList], lines 23 to 25: [$(containerDiv)] is
    evaluated, then the argument [format(data)], then [.html] is
    applied.  The function has no [return]: its value is [undefined]. *)
Definition RequestDataList (data containerDiv : value) : Stmt value :=
  let target := select containerDiv in
  fragment ← format data;
  set_html target fragment;;
  mret (VPrim PUndefined).

(** ** The fragment, as the specification words it

    Ten labelled values in a fixed order, each a list item, inside the
    box and its list. *)

Definition labels : list string :=
  ["requests"; "total events"; "processed events"; "created"; "cooloff";
   "success"; "failure"; "queued"; "running"; "pending"].

Definition item (label text : string) : string :=
  "<li> " +:+ label +:+ ": " +:+ text +:+ "</li>".

Definition box_open : string := "<div class='requestSummaryBox'><ul>".
Definition box_close : string := "</ul></div>".

Fixpoint concat_all (l : list string) : string :=
  match l with
  | [] => ""
  | s :: l' => s +:+ concat_all l'
  end.

Definition fragment (texts : list string) : string :=
  box_open +:+ concat_all (zip_with item labels texts) +:+ box_close.

(** The text a value takes inside the fragment. *)
Definition text_of (h : gmap loc object) (r : result value) : result string :=
  v ← r; p ← to_primitive h v; Ok (to_text p).

(** The ten values that [format] reads from a summary, in the order of
    the labels: three fields of [summaryStruct], then seven accessor
    calls. *)
Definition observations (h : gmap loc object) (summary : value)
  : list (result value) :=
  let field name :=
    ss ← get_prop h summary "summaryStruct"; get_prop h ss name in
  let accessor name args := call_method h summary name args in
  [ field "length"; field "totalEvents"; field "processedEvents";
    accessor "getWMBSTotalJobs" [];
    accessor "getTotalCooloff" [];
    accessor "getJobStatus" [VPrim (PString "success")];
    accessor "getTotalFailure" [];
    accessor "getTotalQueued" [];
    accessor "getJobStatus" [VPrim (PString "submit.running")];
    accessor "getJobStatus" [VPrim (PString "submit.pending")] ].

(** The ten readings of a summary: the texts of its ten values. *)
Definition readings (h : gmap loc object) (summary : value)
  : list (result string) :=
  text_of h <$> observations h summary.

(** The strings that the fourteen [htmlstr += ...] statements append, each
    available only if its reading is. *)
Definition pieces (rs : list (result string)) : list (result string) :=
  [Ok "<div class='requestSummaryBox'>"; Ok "<ul>"]
  ++ zip_with (λ label r, item label <$> r) labels rs
  ++ [Ok "</ul>"; Ok "</div>"].

(** Appending the pieces to [acc] until one is unavailable: the outcome,
    and the string accumulated by then. *)
Fixpoint accumulate (acc : string) (ps : list (result string))
  : result string * string :=
  match ps with
  | [] => (Ok acc, acc)
  | Ok s :: ps' => accumulate (acc +:+ s) ps'
  | Throw e :: _ => (Throw e, acc)
  end.

(** The statements [htmlstr += e] for the expressions of [es], then [k]. *)
Fixpoint append_all {A} (es : list (Expr string)) (k : Stmt A) : Stmt A :=
  match es with
  | [] => k
  | e :: es' => plus_assign "htmlstr" e ;; append_all es' k
  end.

(** The readings as a whole: their texts, or the exception of the first
    one that fails. *)
Fixpoint collect {A} (rs : list (result A)) : result (list A) :=
  match rs with
  | [] => Ok []
  | r :: rs' => a ← r; l ← collect rs'; Ok (a :: l)
  end.

(** The accessor methods that [format] calls, in the order of their
    first call. *)
Definition accessors : list string :=
  ["getWMBSTotalJobs"; "getTotalCooloff"; "getJobStatus"; "getTotalFailure";
   "getTotalQueued"].

(** A summary has the method [name] when that property is a function. *)
Definition has_method (h : gmap loc object) (summary : value) (name : string)
  : bool :=
  match get_prop h summary name with
  | Ok f => match callable h f with Some _ => true | None => false end
  | Throw _ => false
  end.

End Language.

(** ** Reading a fragment back *)

(** The number of places of [s] at which [pat] starts. *)
Fixpoint occurrences (pat s : string) : nat :=
  match s with
  | EmptyString => 0
  | String _ s' =>
      (if String.prefix pat s then 1 else 0) + occurrences pat s'
  end.

(** A text in which no tag can start. *)
Fixpoint tag_free (s : string) : Prop :=
  match s with
  | EmptyString => True
  | String c s' => c ≠ "<"%char ∧ tag_free s'
  end.

(** The texts between each [<li>] and the [</li>] that follows it.
    [skip] characters of a tag just recognised are passed over; [cur] is
    the text of the item being read, if one is open. *)
Fixpoint items_of (skip : nat) (cur : option string) (s : string)
  : list string :=
  match s with
  | EmptyString => []
  | String c s' =>
      match skip with
      | S k => items_of k cur s'
      | O =>
          match cur with
          | None =>
              if String.prefix "<li>" s then items_of 3 (Some "") s'
              else items_of 0 None s'
          | Some t =>
              if String.prefix "</li>" s then t :: items_of 4 None s'
              else items_of 0 (Some (t +:+ String c "")) s'
          end
      end
  end.

(** An item as displayed: without the blank that leads it. *)
Definition displayed (t : string) : string :=
  match t with
  | String " "%char t' => t'
  | _ => t
  end.

(** ** A summary to run the program on

    A host in the manner of the dashboard's request summary: the job
    counts sit in a table of the summary object, keyed by status, and
    each accessor reads its entry. *)

Definition count_of (h : gmap loc object) (this : value) (status : string)
  : result value :=
  match this with
  | VObject l =>
      match h !! l with
      | Some o =>
          match props o !! "jobStatus" with
          | Some (VObject t) =>
              match h !! t with
              | Some table => Ok (default (VPrim PUndefined) (props table !! status))
              | None => Ok (VPrim PUndefined)
              end
          | _ => Throw TypeError
          end
      | None => Throw TypeError
      end
  | VPrim _ => Throw TypeError
  end.

Definition demo_native (f : fn_id) (this : value) (args : list value)
    (h : gmap loc object) : result value :=
  match f with
  | 1%positive => count_of h this "created"
  | 2%positive => count_of h this "cooloff"
  | 3%positive =>
      match args with
      | VPrim (PString status) :: _ => count_of h this status
      | _ => Ok (VPrim PUndefined)
      end
  | 4%positive => count_of h this "failure"
  | 5%positive => count_of h this "queued"
  | _ => Ok (VPrim PUndefined)
  end.

Definition demo_select (c : value) : list node :=
  match c with
  | VPrim (PString "#summary") => [7%positive]
  | _ => []
  end.

Definition demo_host : Host :=
  {| native := demo_native; select := demo_select |}.

Definition fn (f : fn_id) : object := {| props := ∅; code := Some f |}.
Definition plain (l : list (string * value)) : object :=
  {| props := list_to_map l; code := None |}.
Definition num (n : Z) : value := VPrim (PNumber n).

Definition demo_struct : object :=
  plain [("length", num 3); ("totalEvents", num 100); ("processedEvents", num 50)].

Definition demo_counts : object :=
  plain [("created", num 10); ("cooloff", num 2); ("success", num 8);
         ("failure", num 1); ("queued", num 4);
         ("submit.running", num 3); ("submit.pending", num 2)].

Definition demo_methods : list (string * value) :=
  [("getWMBSTotalJobs", VObject 11); ("getTotalCooloff", VObject 12);
   ("getJobStatus", VObject 13); ("getTotalFailure", VObject 14);
   ("getTotalQueued", VObject 15)].

Definition demo_summary : object :=
  plain ([("summaryStruct", VObject 2); ("jobStatus", VObject 3)] ++ demo_methods).

Definition demo_functions : gmap loc object :=
  list_to_map [(11, fn 1); (12, fn 2); (13, fn 3); (14, fn 4); (15, fn 5)]%positive.

Definition demo_heap : gmap loc object :=
  <[1%positive := demo_summary]> (<[2%positive := demo_struct]>
    (<[3%positive := demo_counts]> demo_functions)).

Definition demo_world : world :=
  {| globals := ∅; heap := demo_heap;
     page := {[ 7%positive := "<p>loading</p>" ]} |}.

(** The same summary without its [getTotalQueued] method. *)
Definition demo_heap_no_queued_method : gmap loc object :=
  <[1%positive := plain ([("summaryStruct", VObject 2); ("jobStatus", VObject 3)]
                          ++ take 4 demo_methods)]> demo_heap.

(** The same summary with no count of queued jobs: [getTotalQueued]
    returns [undefined]. *)
Definition demo_heap_no_queued_count : gmap loc object :=
  <[3%positive := plain [("created", num 10); ("cooloff", num 2); ("success", num 8);
         ("failure", num 1);
         ("submit.running", num 3); ("submit.pending", num 2)]]> demo_heap.

(** Another summary object, with the same ten values held as numeric
    strings, in a world whose global [htmlstr] and whose page differ. *)
Definition text (s : string) : value := VPrim (PString s).

Definition other_heap : gmap loc object :=
  <[21%positive := plain ([("summaryStruct", VObject 22); ("jobStatus", VObject 23)]
                           ++ demo_methods)]>
  (<[22%positive := plain [("length", text "3"); ("totalEvents", text "100");
                           ("processedEvents", text "50")]]>
  (<[23%positive := plain [("created", text "10"); ("cooloff", text "2");
         ("success", text "8"); ("failure", text "1"); ("queued", text "4");
         ("submit.running", text "3"); ("submit.pending", text "2")]]>
   demo_functions)).

Definition other_world : world :=
  {| globals := {[ "htmlstr" := text "stale" ]}; heap := other_heap; page := ∅ |}.

Definition with_heap (h : gmap loc object) (w : world) : world :=
  {| globals := globals w; heap := h; page := page w |}.

Definition demo_fragment : string :=
  "<div class='requestSummaryBox'><ul><li> requests: 3</li><li> total events: 100</li><li> processed events: 50</li><li> created: 10</li><li> cooloff: 2</li><li> success: 8</li><li> failure: 1</li><li> queued: 4</li><li> running: 3</li><li> pending: 2</li></ul></div>".

(** ** Summaries with something missing *)

(** The fields of [summaryStruct] that [format] reads, in the order of
    their items. *)
Definition struct_fields : list string :=
  ["length"; "totalEvents"; "processedEvents"].

(** The example summary with a [summaryStruct] that has no
    [totalEvents]. *)
Definition demo_heap_no_total_events : gmap loc object :=
  <[2%positive := plain [("length", num 3); ("processedEvents", num 50)]]>
    demo_heap.

(** A summary object with no property at all. *)
Definition bare_world : world :=
  {| globals := ∅; heap := {[ 1%positive := plain [] ]};
     page := {[ 7%positive := "<p>loading</p>" ]} |}.

(** Another summary, of one request, in the heap of the example. *)
Definition second_heap : gmap loc object :=
  <[31%positive := plain ([("summaryStruct", VObject 32); ("jobStatus", VObject 33)]
                           ++ demo_methods)]>
  (<[32%positive := plain [("length", num 1); ("totalEvents", num 7);
                           ("processedEvents", num 7)]]>
  (<[33%positive := plain [("created", num 1); ("cooloff", num 0);
         ("success", num 1); ("failure", num 0); ("queued", num 0);
         ("submit.running", num 0); ("submit.pending", num 0)]]>
   demo_heap)).


(** * Proofs *)

(** The expressions appended by a chain of [htmlstr += e] statements. *)
Ltac appended m :=
  lazymatch m with
  | mbind (λ _, ?k) (plus_assign "htmlstr" ?e) =>
      let es := appended k in constr:(e :: es)
  | _ => constr:(@nil (Expr string))
  end.

(** ** Strings *)

Lemma append_assoc (a b c : string) : (a +:+ b) +:+ c = a +:+ (b +:+ c).
Proof.
  induction a as [|x a IH]; [done|].
  change (String x ((a +:+ b) +:+ c) = String x (a +:+ (b +:+ c))).
  by rewrite IH.
Qed.

Lemma append_empty_r (a : string) : a +:+ "" = a.
Proof.
  induction a as [|x a IH]; [done|].
  change (String x (a +:+ "") = String x a). by rewrite IH.
Qed.

Lemma append_cons c (a b : string) : String c a +:+ b = String c (a +:+ b).
Proof. reflexivity. Qed.

Lemma append_empty_l (b : string) : "" +:+ b = b.
Proof. reflexivity. Qed.

(** ** Counting list items *)

Lemma prefix_empty (s : string) : String.prefix "" s = true.
Proof. by destruct s. Qed.

(** No [<li>] starts in a text and ends in the tag that follows it. *)
Lemma prefix_before_tag c (t r : string) :
  String.prefix "<li>" (String c t +:+ String "<" r)
  = String.prefix "<li>" (String c t).
Proof.
  destruct t as [|c1 [|c2 [|c3 t]]]; rewrite ?append_cons, ?append_empty_l;
    cbn [String.prefix]; rewrite ?prefix_empty;
    repeat match goal with
           | |- context [ascii_dec ?a ?b] => destruct (ascii_dec a b); try done
           end.
Qed.

Lemma occurrences_before_tag (t r : string) :
  occurrences "<li>" (t +:+ String "<" r)
  = occurrences "<li>" t + occurrences "<li>" (String "<" r).
Proof.
  induction t as [|c t IH]; [done|].
  change (String c t +:+ String "<" r) with (String c (t +:+ String "<" r)) at 1.
  cbn [occurrences].
  change (String c (t +:+ String "<" r)) with (String c t +:+ String "<" r).
  rewrite prefix_before_tag, IH. cbn [occurrences]. lia.
Qed.

Lemma occurrences_tag_free (t : string) :
  tag_free t → occurrences "<li>" t = 0.
Proof.
  induction t as [|c t IH]; intros Ht; [done|].
  destruct Ht as [Hc Ht]. cbn [occurrences String.prefix].
  destruct (ascii_dec "<" c) as [Heq|_]; [by destruct Hc|].
  by rewrite IH.
Qed.

(** The fragment of ten texts holds the ten [<li>] of its items, and
    those that the texts themselves hold. *)
Lemma fragment_count_exact ts :
  length ts = 10 →
  occurrences "<li>" (fragment ts) = 10 + sum_list (occurrences "<li>" <$> ts).
Proof.
  intros Hlen.
  do 10 (destruct ts as [|? ts]; [done|]). destruct ts; [|done].
  unfold fragment, box_open, box_close, labels, item.
  cbn [zip_with concat_all].
  rewrite !append_assoc, !append_cons, !append_empty_l.
  repeat (cbn [occurrences String.prefix];
          rewrite occurrences_before_tag).
  cbn [occurrences String.prefix fmap list_fmap sum_list sum_list_with].
  repeat match goal with
         | |- context [occurrences "<li>" ?s] =>
             is_var s; generalize (occurrences "<li>" s); intro
         end.
  cbv -[Nat.add]. lia.
Qed.

Lemma fragment_count ts :
  length ts = 10 → Forall tag_free ts → occurrences "<li>" (fragment ts) = 10.
Proof.
  intros Hlen Hts. rewrite fragment_count_exact by done.
  assert (sum_list (occurrences "<li>" <$> ts) = 0) as ->; [|done].
  clear Hlen. induction Hts as [|t ts Ht _ IH]; [done|].
  cbn [fmap list_fmap sum_list sum_list_with]. cbn in IH.
  by rewrite (occurrences_tag_free _ Ht), IH.
Qed.

(** The decimal notation of a number, and the text of every primitive
    that is not a string, are free of tags. *)
Lemma tag_free_pretty_N_go (x : N) (s : string) :
  tag_free s → tag_free (pretty_N_go x s).
Proof.
  revert s. induction (N.lt_wf_0 x) as [x _ IH]; intros s Hs.
  destruct (decide (x = 0)%N) as [->|Hx]; [by rewrite pretty_N_go_0|].
  rewrite pretty_N_go_step by lia.
  apply IH; [apply N.div_lt; lia|].
  split; [|done]. unfold pretty_N_char. by repeat case_match.
Qed.

Lemma tag_free_pretty_Z (n : Z) : tag_free (pretty n).
Proof.
  assert (∀ x : N, tag_free (pretty x)) as HN.
  { intros x. unfold pretty, pretty_N. case_decide; [by compute|].
    by apply tag_free_pretty_N_go. }
  destruct n as [|x|x]; [by compute | apply HN |].
  split; [done | apply HN].
Qed.

Lemma tag_free_to_text (p : prim) :
  (∀ s, p ≠ PString s) → tag_free (to_text p).
Proof.
  destruct p as [| |[]|n|s]; intros Hp; try by compute.
  - apply tag_free_pretty_Z.
  - by destruct (Hp s).
Qed.

Section Renderer.
Context `{Host}.
Implicit Types (w : world) (h : gmap loc object) (summary data : value).

(** ** Running [format]

    Once [htmlstr] holds a string, a statement [htmlstr += e] either
    appends the string of [e] or throws and leaves [htmlstr] as it is. *)

Lemma set_global_twice x v v' w :
  set_global x v (set_global x v' w) = set_global x v w.
Proof. unfold set_global; simpl. by rewrite insert_insert_eq. Qed.

Lemma run_plus_assign {A} (e : Expr string) (k : Stmt A) acc w :
  (plus_assign "htmlstr" e ;; k) (set_global "htmlstr" (VPrim (PString acc)) w) =
  match e (set_global "htmlstr" (VPrim (PString acc)) w) with
  | Ok s => k (set_global "htmlstr" (VPrim (PString (acc +:+ s))) w)
  | Throw ex => (Throw ex, set_global "htmlstr" (VPrim (PString acc)) w)
  end.
Proof.
  unfold mbind, stmt_bind, plus_assign, var. simpl.
  rewrite lookup_insert_eq. simpl.
  destruct (e _); simpl; [|done].
  by rewrite set_global_twice.
Qed.

Lemma run_append_all {A} (k : Stmt A) w es rs :
  Forall2 (λ (e : Expr string) r, ∀ v, e (set_global "htmlstr" v w) = r) es rs →
  ∀ acc,
  append_all es k (set_global "htmlstr" (VPrim (PString acc)) w) =
  match accumulate acc rs with
  | (Ok acc', _) => k (set_global "htmlstr" (VPrim (PString acc')) w)
  | (Throw e, acc') => (Throw e, set_global "htmlstr" (VPrim (PString acc')) w)
  end.
Proof.
  induction 1 as [|e r es rs He _ IH]; intros acc; simpl; [done|].
  rewrite run_plus_assign, He. destruct r; [apply IH | done].
Qed.

Lemma item_expr_denotation (e : Expr value) label w :
  plus_str (str_plus ("<li> " +:+ label +:+ ": ") e) "</li>" w
  = item label <$> text_of (heap w) (e w).
Proof.
  unfold plus_str, str_plus, text_of, item.
  destruct (e w) as [v|]; simpl; [|done].
  destruct (to_primitive (heap w) v); simpl; [|done].
  by rewrite !append_assoc.
Qed.

(** On success the outcome is the accumulated string. *)
Lemma accumulate_ok acc ps a a' : accumulate acc ps = (Ok a, a') → a' = a.
Proof.
  revert acc; induction ps as [|[s|e] ps IH]; intros acc; simpl;
    [congruence | eauto | done].
Qed.

(** [format] as a whole: it throws at once when [summaryStruct] cannot be
    read; otherwise it appends the pieces in order, returns the string
    when all are available, and in any case leaves in [htmlstr] what it
    has accumulated. *)

Lemma format_denotation summary w :
  format summary w =
  match get_prop (heap w) summary "summaryStruct" with
  | Throw e => (Throw e, w)
  | Ok _ =>
      let '(r, acc) := accumulate "" (pieces (readings (heap w) summary)) in
      ((λ s, VPrim (PString s)) <$> r, set_global "htmlstr" (VPrim (PString acc)) w)
  end.
Proof.
  pose (out := accumulate "" (pieces (readings (heap w) summary))).
  change (accumulate "" (pieces (readings (heap w) summary))) with out.
  unfold format.
  unfold mbind at 1. unfold stmt_bind at 1. unfold eval at 1. unfold member at 1, lit at 1.
  change (Ok summary ≫= _) with (get_prop (heap w) summary "summaryStruct").
  destruct (get_prop (heap w) summary "summaryStruct") as [ss|e] eqn:Hss; [|done].
  unfold mbind at 1. unfold stmt_bind at 1. unfold assign at 1, lit at 1.
  cbv beta iota.
  lazymatch goal with
  | |- ?m ?w0 = _ =>
      let es := appended m in
      change m with (append_all es (eval (var "htmlstr")))
  end.
  rewrite (run_append_all _ w _ (pieces (readings (heap w) summary))).
  - fold out. destruct out as [[acc|e] acc'] eqn:Hacc; [|reflexivity].
    unfold eval, var; simpl. rewrite lookup_insert_eq.
    by rewrite (accumulate_ok _ _ _ _ Hacc).
  - unfold pieces, readings, observations, labels.
    cbn [zip_with app fmap list_fmap].
    repeat (apply Forall2_cons; split; [intros v|]); [..|constructor];
      try reflexivity.
    all: lazymatch goal with
         | |- plus_str (str_plus _ ?e) _ ?w' = item ?label <$> _ =>
             exact (item_expr_denotation e label w')
         end.
Qed.

Lemma accumulate_app acc ss ps :
  accumulate acc ((Ok <$> ss) ++ ps) = accumulate (acc +:+ concat_all ss) ps.
Proof.
  revert acc; induction ss as [|s ss IH]; intros acc; simpl.
  - by rewrite append_empty_r.
  - by rewrite IH, append_assoc.
Qed.

Lemma zip_items_ok (ls ts : list string) :
  zip_with (λ label (r : result string), item label <$> r) ls (Ok <$> ts)
  = Ok <$> zip_with item ls ts.
Proof.
  revert ts; induction ls as [|l ls IH]; intros [|t ts]; simpl; try done.
  by rewrite IH.
Qed.

Lemma accumulate_texts ts :
  accumulate "" (pieces (Ok <$> ts)) = (Ok (fragment ts), fragment ts).
Proof.
  unfold pieces. rewrite zip_items_ok.
  change [Ok "<div class='requestSummaryBox'>"; Ok "<ul>"]
    with (Ok <$> ["<div class='requestSummaryBox'>"; "<ul>"] : list (result string)).
  change [Ok "</ul>"; Ok "</div>"]
    with (Ok <$> ["</ul>"; "</div>"] : list (result string)).
  rewrite !accumulate_app. simpl. unfold fragment.
  rewrite !append_assoc. reflexivity.
Qed.

(** The first reading of a summary whose [summaryStruct] cannot be read
    fails the same way. *)
Lemma format_outcome summary w :
  fst (format summary w) =
  (λ s, VPrim (PString s)) <$> fst (accumulate "" (pieces (readings (heap w) summary))).
Proof.
  rewrite format_denotation.
  destruct (get_prop (heap w) summary "summaryStruct") as [ss|e] eqn:Hss.
  - by destruct (accumulate _ _).
  - unfold readings, observations, pieces, labels, text_of.
    cbn [fmap list_fmap]. rewrite Hss. reflexivity.
Qed.

Lemma accumulate_zip (ls : list string) rs ps acc :
  length ls = length rs →
  fst (accumulate acc (zip_with (λ label (r : result string), item label <$> r) ls rs ++ ps)) =
  match collect rs with
  | Ok ts => fst (accumulate (acc +:+ concat_all (zip_with item ls ts)) ps)
  | Throw e => Throw e
  end.
Proof.
  revert rs acc; induction ls as [|l ls IH]; intros [|[t|e] rs] acc Hlen;
    simplify_eq/=; try done.
  - by rewrite append_empty_r.
  - rewrite IH by done. destruct (collect rs); simpl; [|done].
    by rewrite append_assoc.
Qed.

Lemma accumulate_collect rs :
  length rs = 10 →
  fst (accumulate "" (pieces rs)) = (ts ← collect rs; Ok (fragment ts)).
Proof.
  intros Hlen. unfold pieces. cbn [app accumulate].
  rewrite accumulate_zip by done.
  destruct (collect rs) as [ts|e]; simpl; [|done].
  unfold fragment. by rewrite !append_assoc.
Qed.

(** [format] returns the fragment of the ten texts, or throws what the
    first failing reading throws. *)
Lemma format_collect summary w :
  fst (format summary w) =
  (ts ← collect (readings (heap w) summary); Ok (VPrim (PString (fragment ts)))).
Proof.
  rewrite format_outcome, accumulate_collect by done.
  by destruct (collect _).
Qed.

Lemma collect_ok {A} (rs : list (result A)) ts :
  collect rs = Ok ts ↔ rs = Ok <$> ts.
Proof.
  revert ts; induction rs as [|[a|e] rs IH]; intros ts; simpl.
  - split; [intros [= <-]; done | by destruct ts].
  - destruct (collect rs) as [l|e] eqn:Hl; simpl.
    + split.
      * intros [= <-]. simpl. f_equal. by apply IH.
      * destruct ts as [|t ts]; [done|]. intros [= -> Hrs].
        apply IH in Hrs. by simplify_eq.
    + split; [done|]. destruct ts as [|t ts]; [done|]. intros [= -> Hrs].
      by apply IH in Hrs.
  - split; [done | by destruct ts].
Qed.

(** What [format] leaves behind: the heap and the page as they were,
    and no global changed but [htmlstr]. *)
Lemma format_frame summary w :
  heap (snd (format summary w)) = heap w ∧
  page (snd (format summary w)) = page w ∧
  ∀ x, x ≠ "htmlstr" →
    globals (snd (format summary w)) !! x = globals w !! x.
Proof.
  rewrite format_denotation.
  destruct (get_prop _ _ _); [|done].
  destruct (accumulate _ _) as [r acc]; simpl.
  split_and!; try done. intros x Hx. by rewrite lookup_insert_ne.
Qed.

Lemma format_success summary w ts :
  readings (heap w) summary = Ok <$> ts →
  format summary w =
  (Ok (VPrim (PString (fragment ts))),
   set_global "htmlstr" (VPrim (PString (fragment ts))) w).
Proof.
  intros Hrs. rewrite format_denotation, Hrs, accumulate_texts.
  destruct (get_prop _ _ _) as [ss|e] eqn:Hss; [done|].
  exfalso. revert Hrs. unfold readings, observations, text_of.
  cbn [fmap list_fmap]. rewrite Hss. by destruct ts.
Qed.

(** Of a primitive value the text is read off directly, and unless the
    value is a string no tag can start in it. *)
Lemma text_of_primitive h (p : prim) t :
  text_of h (Ok (VPrim p)) = Ok t →
  t = to_text p ∧ ((∀ s, p ≠ PString s) → tag_free t).
Proof.
  intros [= <-]. split; [done | apply tag_free_to_text].
Qed.

(** Summaries with the same ten values have the same readings: in one
    heap whatever the values, and across heaps when the values are
    primitives, whose text does not depend on the heap. *)
Lemma readings_same_heap h summary summary' :
  observations h summary = observations h summary' →
  readings h summary = readings h summary'.
Proof. unfold readings. by intros ->. Qed.

Lemma readings_of_primitives h summary (ps : list prim) :
  observations h summary = (λ p, Ok (VPrim p)) <$> ps →
  readings h summary = Ok <$> (to_text <$> ps).
Proof.
  unfold readings. intros ->. rewrite <- !list_fmap_compose.
  by apply list_fmap_ext.
Qed.

Lemma readings_equal_primitives h h' summary summary' (ps : list prim) :
  observations h summary = (λ p, Ok (VPrim p)) <$> ps →
  observations h' summary' = (λ p, Ok (VPrim p)) <$> ps →
  readings h summary = readings h' summary'.
Proof.
  intros Hs Hs'.
  by rewrite (readings_of_primitives _ _ _ Hs), (readings_of_primitives _ _ _ Hs').
Qed.

(** The texts of numbers, booleans, [undefined] and [null] hold no tag. *)
Lemma texts_tag_free (ps : list prim) :
  Forall (λ p, ∀ s, p ≠ PString s) ps → Forall tag_free (to_text <$> ps).
Proof.
  induction 1 as [|p ps Hp _ IH]; simpl; constructor;
    [by apply tag_free_to_text | done].
Qed.

(** ** The page *)

Lemma lookup_fill (s : string) (p : gmap node string) (ns : list node) n :
  foldr (λ n p, <[n:=s]> p) p ns !! n
  = if decide (n ∈ ns) then Some s else p !! n.
Proof.
  induction ns as [|m ns IH]; cbn [foldr].
  - case_decide; [set_solver | done].
  - rewrite lookup_insert, IH. destruct (decide (m = n)) as [->|Hne].
    + rewrite decide_True; [done | by left].
    + destruct (decide (n ∈ ns)) as [Hin|Hout].
      * rewrite decide_True; [done | by right].
      * rewrite decide_False; [done|]. by intros [->|?]%elem_of_cons.
Qed.

Lemma fill_twice (s : string) (p : gmap node string) (ns : list node) :
  foldr (λ n p, <[n:=s]> p) (foldr (λ n p, <[n:=s]> p) p ns) ns
  = foldr (λ n p, <[n:=s]> p) p ns.
Proof.
  apply map_eq; intros n. rewrite !lookup_fill. by destruct (decide (n ∈ ns)).
Qed.

Lemma RequestDataList_unfold data c w :
  RequestDataList data c w =
  match format data w with
  | (Ok v, w') => (Ok (VPrim PUndefined), snd (set_html (select c) v w'))
  | (Throw e, w') => (Throw e, w')
  end.
Proof.
  unfold RequestDataList, mbind, stmt_bind, mret, stmt_ret.
  destruct (format data w) as [[v|e] w']; [|done].
  unfold set_html. by destruct v as [[| | | |s]|].
Qed.

Lemma RequestDataList_success data c w ts :
  readings (heap w) data = Ok <$> ts →
  RequestDataList data c w =
  (Ok (VPrim PUndefined),
   set_page (foldr (λ n p, <[n:=fragment ts]> p) (page w) (select c))
     (set_global "htmlstr" (VPrim (PString (fragment ts))) w)).
Proof.
  intros Hrs. rewrite RequestDataList_unfold, (format_success _ _ ts) by done.
  reflexivity.
Qed.

Lemma RequestDataList_other_elements data c w n :
  n ∉ select c →
  page (snd (RequestDataList data c w)) !! n = page w !! n.
Proof.
  intros Hn. rewrite RequestDataList_unfold.
  destruct (format_frame data w) as (_ & Hp & _).
  destruct (format data w) as [[v|e] w']; simpl in *; [|by rewrite Hp].
  unfold set_html. destruct v as [[| | | |s]|]; simpl; rewrite <- ?Hp; try done.
  rewrite lookup_fill. by rewrite decide_False.
Qed.

(** Whatever the outcome, a call writes neither the heap nor any global
    but [htmlstr]; when it throws, it does not write the page. *)
Lemma RequestDataList_frame data c w :
  heap (snd (RequestDataList data c w)) = heap w ∧
  (∀ x, x ≠ "htmlstr" →
     globals (snd (RequestDataList data c w)) !! x = globals w !! x) ∧
  (∀ e, fst (RequestDataList data c w) = Throw e →
     page (snd (RequestDataList data c w)) = page w).
Proof.
  rewrite RequestDataList_unfold.
  destruct (format_frame data w) as (Hh & Hp & Hg).
  destruct (format data w) as [[v|e] w']; simpl in *.
  - unfold set_html. destruct v as [[| | | |s]|]; simpl; split_and!; done.
  - split_and!; done.
Qed.

(** ** The claims *)

(** C1. For a summary whose ten readings succeed, with texts [t1] to
    [t10], [format] returns the box whose list holds, in this order, the
    items requests, total events, processed events, created, cooloff,
    success, failure, queued, running and pending, each text put as it is
    between its label and the end of its list item. *)
Theorem format_lists_ten_values summary w t1 t2 t3 t4 t5 t6 t7 t8 t9 t10 :
  readings (heap w) summary
    = [Ok t1; Ok t2; Ok t3; Ok t4; Ok t5; Ok t6; Ok t7; Ok t8; Ok t9; Ok t10] →
  fst (format summary w) = Ok (VPrim (PString (
    "<div class='requestSummaryBox'><ul>"
    +:+ "<li> requests: " +:+ t1 +:+ "</li>"
    +:+ "<li> total events: " +:+ t2 +:+ "</li>"
    +:+ "<li> processed events: " +:+ t3 +:+ "</li>"
    +:+ "<li> created: " +:+ t4 +:+ "</li>"
    +:+ "<li> cooloff: " +:+ t5 +:+ "</li>"
    +:+ "<li> success: " +:+ t6 +:+ "</li>"
    +:+ "<li> failure: " +:+ t7 +:+ "</li>"
    +:+ "<li> queued: " +:+ t8 +:+ "</li>"
    +:+ "<li> running: " +:+ t9 +:+ "</li>"
    +:+ "<li> pending: " +:+ t10 +:+ "</li>"
    +:+ "</ul></div>"))).
Proof.
  intros Hrs.
  rewrite (format_success _ _ [t1; t2; t3; t4; t5; t6; t7; t8; t9; t10]) by done.
  simpl. do 3 f_equal. unfold fragment, item. simpl.
  rewrite !append_assoc. reflexivity.
Qed.

(** C2. The summary of three requests, 100 total and 50 processed
    events, 10 created, 2 cooloff, 8 success, 1 failure, 4 queued,
    3 running and 2 pending jobs: [format] returns the fragment below,
    whose list items read, displayed, as the ten lines given. *)
Theorem format_example :
  fst (format (H:=demo_host) (VObject 1) demo_world)
    = Ok (VPrim (PString demo_fragment)) ∧
  displayed <$> items_of 0 None demo_fragment
    = ["requests: 3"; "total events: 100"; "processed events: 50";
       "created: 10"; "cooloff: 2"; "success: 8"; "failure: 1";
       "queued: 4"; "running: 3"; "pending: 2"].
Proof. split; vm_compute; reflexivity. Qed.

(** C3. Calling the renderer a second time with the same summary and
    the same container changes nothing: same outcome, same world, and so
    the same content in every container. *)
Theorem render_idempotent data c w :
  RequestDataList data c (snd (RequestDataList data c w))
  = RequestDataList data c w.
Proof.
  rewrite (RequestDataList_unfold data c w), format_denotation.
  destruct (get_prop (heap w) data "summaryStruct") as [ss|e] eqn:Hss; cycle 1.
  { cbn [snd]. by rewrite RequestDataList_unfold, format_denotation, Hss. }
  destruct (accumulate _ _) as [[s|e] acc] eqn:Hacc;
    cbn [fmap result_fmap snd set_html];
    rewrite RequestDataList_unfold, format_denotation;
    cbn [heap set_page set_global]; rewrite Hss, Hacc;
    cbn [fmap result_fmap snd set_html].
  - apply accumulate_ok in Hacc as ->.
    unfold set_page, set_global; cbn [globals heap page].
    by rewrite insert_insert_eq, fill_twice.
  - by rewrite set_global_twice.
Qed.

(** C4. For a summary whose readings succeed, whatever the page held
    before, each element the container designates holds exactly the
    fragment afterwards. *)
Theorem render_replaces data c w ts n p0 :
  readings (heap w) data = Ok <$> ts →
  n ∈ select c →
  page (snd (RequestDataList data c (set_page p0 w))) !! n = Some (fragment ts).
Proof.
  intros Hrs Hn. rewrite (RequestDataList_success _ _ _ ts) by done. simpl.
  rewrite lookup_fill. by rewrite decide_True.
Qed.

(** C5. Two calls of [format], on summaries whose ten readings are
    equal, in any two worlds, have the same outcome: the same fragment. *)
Theorem format_deterministic summary summary' w w' :
  readings (heap w) summary = readings (heap w') summary' →
  fst (format summary w) = fst (format summary' w').
Proof. intros Hrs. by rewrite !format_collect, Hrs. Qed.


(** ** Failures *)

Lemma get_prop_throw h base name e :
  get_prop h base name = Throw e → e = TypeError.
Proof.
  unfold get_prop. repeat case_match; congruence.
Qed.

Lemma call_without_method h summary name args :
  has_method h summary name = false →
  call_method h summary name args = Throw TypeError.
Proof.
  unfold has_method, call_method.
  destruct (get_prop h summary name) as [f|e] eqn:Hf; simpl.
  - by destruct (callable h f).
  - intros _. by rewrite (get_prop_throw _ _ _ _ Hf).
Qed.

Lemma collect_throw {A} (rs : list (result A)) e :
  Throw e ∈ rs → ∃ e', collect rs = Throw e'.
Proof.
  induction rs as [|[a|e0] rs IH]; simpl.
  - by intros ?%elem_of_nil.
  - intros [?|Hin]%elem_of_cons; [done|].
    destruct (IH Hin) as [e' ->]. by exists e'.
  - intros _. by exists e0.
Qed.

Lemma accessor_reading h summary name :
  name ∈ accessors →
  ∃ args, text_of h (call_method h summary name args) ∈ readings h summary.
Proof.
  unfold accessors, readings, observations. cbn [fmap list_fmap].
  rewrite !elem_of_cons, elem_of_nil.
  intros [->|[->|[->|[->|[->|[]]]]]]; eexists;
    do 3 apply list_elem_of_further;
    repeat first [apply list_elem_of_here | apply list_elem_of_further].
Qed.

(** Primitive values never make the renderer fail: [undefined] and
    [null] too are turned into text and written to the container. *)
Lemma render_primitive_values data c w (ps : list prim) n :
  observations (heap w) data = (λ p, Ok (VPrim p)) <$> ps →
  n ∈ select c →
  fst (RequestDataList data c w) = Ok (VPrim PUndefined) ∧
  page (snd (RequestDataList data c w)) !! n
  = Some (fragment (to_text <$> ps)).
Proof.
  intros Hps%readings_of_primitives Hn.
  rewrite (RequestDataList_success _ _ _ _ Hps). split; [done|]. simpl.
  rewrite lookup_fill. by rewrite decide_True.
Qed.

(** C6, as the code has it.  A summary that lacks one of the accessor
    methods makes the renderer fail, with the exception of the first
    reading that fails; the reading of the absent method fails with a
    TypeError; and the page is left as it was. *)
Theorem render_missing_accessor data c w name :
  name ∈ accessors →
  has_method (heap w) data name = false →
  ∃ e, fst (RequestDataList data c w) = Throw e ∧
       collect (readings (heap w) data) = Throw e ∧
       (∀ args, call_method (heap w) data name args = Throw TypeError) ∧
       page (snd (RequestDataList data c w)) = page w.
Proof.
  intros Hname Hno.
  destruct (accessor_reading (heap w) data name Hname) as [args Hin].
  rewrite (call_without_method _ _ _ _ Hno) in Hin.
  destruct (collect_throw _ _ Hin) as [e He].
  assert (fst (RequestDataList data c w) = Throw e) as Hfail.
  { rewrite RequestDataList_unfold.
    pose proof (format_collect data w) as Hf. rewrite He in Hf.
    by destruct (format data w) as [[v|e0] w']; simplify_eq/=. }
  exists e. split_and!; try done.
  - intros args'. by apply call_without_method.
  - by apply (RequestDataList_frame data c w) in Hfail.
Qed.

(** C7, as the code has it.  When the container reference designates no
    element, the renderer raises no error: for a summary whose readings
    succeed it returns normally, the fragment is formatted all the same
    and left in [htmlstr], and the page is as it was. *)
Theorem render_unresolved_container data c w ts :
  select c = [] →
  readings (heap w) data = Ok <$> ts →
  RequestDataList data c w =
  (Ok (VPrim PUndefined), set_global "htmlstr" (VPrim (PString (fragment ts))) w).
Proof.
  intros Hc Hrs. rewrite (RequestDataList_success _ _ _ ts), Hc by done.
  by destruct w.
Qed.

(** C8. The renderer leaves the heap, hence the summary, as it was:
    every property and every accessor call reads after the call what it
    read before. *)
Theorem render_leaves_summary data c w :
  heap (snd (RequestDataList data c w)) = heap w ∧
  (∀ base name,
     get_prop (heap (snd (RequestDataList data c w))) base name
     = get_prop (heap w) base name) ∧
  (∀ name args,
     call_method (heap (snd (RequestDataList data c w))) data name args
     = call_method (heap w) data name args) ∧
  readings (heap (snd (RequestDataList data c w))) data
  = readings (heap w) data.
Proof.
  destruct (RequestDataList_frame data c w) as (-> & _). done.
Qed.

(** C9, on the example.  [format] is not confined to its local
    variables: a global object without [htmlstr] holds the fragment under
    that name after the call, and one whose [htmlstr] held another value
    has it overwritten. *)
Theorem format_sets_global_htmlstr :
  globals demo_world !! "htmlstr" = None ∧
  globals (snd (format (H:=demo_host) (VObject 1) demo_world)) !! "htmlstr"
  = Some (VPrim (PString demo_fragment)) ∧
  globals other_world !! "htmlstr" = Some (VPrim (PString "stale")) ∧
  globals (snd (format (H:=demo_host) (VObject 21) other_world)) !! "htmlstr"
  = Some (VPrim (PString demo_fragment)).
Proof. repeat split; vm_compute; reflexivity. Qed.

(** Whenever [format] returns, its value is the box opened by
    [<div class='requestSummaryBox'><ul>] and closed by [</ul></div>]
    around exactly ten list items, one per label, each made of [<li>], one
    blank, the label, a colon and a blank, the text of the value and
    [</li>], whatever the values.  Counted in the fragment, [<li>] starts
    at ten places and at those where a text itself holds it: at exactly
    ten when no text holds a tag. *)
Theorem format_box_structure summary w v :
  fst (format summary w) = Ok v →
  ∃ ts items,
    readings (heap w) summary = Ok <$> ts ∧
    v = VPrim (PString ("<div class='requestSummaryBox'><ul>"
                        +:+ concat_all items +:+ "</ul></div>")) ∧
    length items = 10 ∧
    Forall2 (λ label it,
               String.prefix " " label = false ∧
               ∃ t, it = "<li> " +:+ label +:+ ": " +:+ t +:+ "</li>")
            labels items ∧
    occurrences "<li>" ("<div class='requestSummaryBox'><ul>"
                        +:+ concat_all items +:+ "</ul></div>")
      = 10 + sum_list (occurrences "<li>" <$> ts) ∧
    (Forall tag_free ts →
     occurrences "<li>" ("<div class='requestSummaryBox'><ul>"
                         +:+ concat_all items +:+ "</ul></div>") = 10).
Proof.
  rewrite format_collect.
  destruct (collect _) as [ts|e] eqn:Hts; [|done]. intros [= <-].
  apply collect_ok in Hts.
  assert (length ts = 10) as Hlen.
  { apply (f_equal length) in Hts. by rewrite length_fmap in Hts. }
  exists ts, (zip_with item labels ts). split_and!; try done.
  - by rewrite length_zip_with, Hlen.
  - do 10 (destruct ts as [|? ts]; [done|]). destruct ts; [|done].
    unfold labels; cbn [zip_with].
    unfold item.
    repeat (apply Forall2_cons; split;
            [split; [reflexivity | by eexists] |]).
    constructor.
  - by apply (fragment_count_exact ts).
  - intros Htags. by apply (fragment_count ts).
Qed.


End Renderer.

(** ** The claims on the example summary *)

(** The readings of the example are the ten texts of C2. *)
Lemma demo_readings :
  readings (H:=demo_host) demo_heap (VObject 1)
  = Ok <$> ["3"; "100"; "50"; "10"; "2"; "8"; "1"; "4"; "3"; "2"].
Proof. vm_compute. reflexivity. Defined.

(** C1 on the example. *)
Lemma format_lists_ten_values_witness :
  readings (H:=demo_host) (heap demo_world) (VObject 1)
    = [Ok "3"; Ok "100"; Ok "50"; Ok "10"; Ok "2"; Ok "8"; Ok "1"; Ok "4";
       Ok "3"; Ok "2"] ∧
  fst (format (H:=demo_host) (VObject 1) demo_world)
    = Ok (VPrim (PString demo_fragment)).
Proof.
  split; [exact demo_readings|].
  exact (format_lists_ten_values (H:=demo_host) (VObject 1) demo_world
           "3" "100" "50" "10" "2" "8" "1" "4" "3" "2" demo_readings).
Defined.

(** C4 on the example: the element designated by [#summary] holds the
    fragment, whether it held a notice or anything else before. *)
Lemma render_replaces_witness :
  readings (H:=demo_host) (heap demo_world) (VObject 1)
    = Ok <$> ["3"; "100"; "50"; "10"; "2"; "8"; "1"; "4"; "3"; "2"] ∧
  7%positive ∈ select (Host:=demo_host) (text "#summary") ∧
  page (snd (RequestDataList (H:=demo_host) (VObject 1) (text "#summary")
               (set_page {[ 7%positive := "<b>old</b>" ]} demo_world)))
    !! 7%positive
  = Some (fragment ["3"; "100"; "50"; "10"; "2"; "8"; "1"; "4"; "3"; "2"]).
Proof.
  split; [exact demo_readings|]. split; [apply list_elem_of_here|].
  apply (render_replaces (H:=demo_host) (VObject 1) (text "#summary")
           demo_world); [exact demo_readings | apply list_elem_of_here].
Defined.

(** C5 on the example: another summary object, in another world, with
    the same ten readings. *)
Lemma format_deterministic_witness :
  readings (H:=demo_host) (heap demo_world) (VObject 1)
    = readings (H:=demo_host) (heap other_world) (VObject 21) ∧
  fst (format (H:=demo_host) (VObject 1) demo_world)
    = fst (format (H:=demo_host) (VObject 21) other_world).
Proof.
  assert (readings (H:=demo_host) (heap demo_world) (VObject 1)
          = readings (H:=demo_host) (heap other_world) (VObject 21)) as Hrs
    by (vm_compute; reflexivity).
  split; [exact Hrs|].
  exact (format_deterministic (H:=demo_host) _ _ _ _ Hrs).
Defined.

(** C6 as stated fails.  With no count of queued jobs, [getTotalQueued]
    returns [undefined]: the renderer raises nothing and replaces the
    notice of the container by a fragment that reads [queued: undefined].
    Without the method itself the renderer does fail, with the TypeError
    of the language. *)
Lemma render_undefined_value_no_error :
  call_method (H:=demo_host) demo_heap_no_queued_count (VObject 1)
    "getTotalQueued" [] = Ok (VPrim PUndefined) ∧
  fst (RequestDataList (H:=demo_host) (VObject 1) (text "#summary")
         (with_heap demo_heap_no_queued_count demo_world))
    = Ok (VPrim PUndefined) ∧
  page (with_heap demo_heap_no_queued_count demo_world) !! 7%positive
    = Some "<p>loading</p>" ∧
  page (snd (RequestDataList (H:=demo_host) (VObject 1) (text "#summary")
               (with_heap demo_heap_no_queued_count demo_world)))
    !! 7%positive
    = Some "<div class='requestSummaryBox'><ul><li> requests: 3</li><li> total events: 100</li><li> processed events: 50</li><li> created: 10</li><li> cooloff: 2</li><li> success: 8</li><li> failure: 1</li><li> queued: undefined</li><li> running: 3</li><li> pending: 2</li></ul></div>" ∧
  fst (RequestDataList (H:=demo_host) (VObject 1) (text "#summary")
         (with_heap demo_heap_no_queued_method demo_world))
    = Throw TypeError.
Proof. repeat split; vm_compute; reflexivity. Qed.

(** The amended C6 on the example without [getTotalQueued]. *)
Lemma render_missing_accessor_witness :
  "getTotalQueued" ∈ accessors ∧
  has_method
    (heap (with_heap demo_heap_no_queued_method demo_world))
    (VObject 1) "getTotalQueued" = false ∧
  ∃ e,
    fst (RequestDataList (H:=demo_host) (VObject 1) (text "#summary")
           (with_heap demo_heap_no_queued_method demo_world)) = Throw e ∧
    collect (readings (H:=demo_host)
               (heap (with_heap demo_heap_no_queued_method demo_world))
               (VObject 1)) = Throw e ∧
    (∀ args,
       call_method (H:=demo_host)
         (heap (with_heap demo_heap_no_queued_method demo_world))
         (VObject 1) "getTotalQueued" args = Throw TypeError) ∧
    page (snd (RequestDataList (H:=demo_host) (VObject 1) (text "#summary")
                 (with_heap demo_heap_no_queued_method demo_world)))
    = page (with_heap demo_heap_no_queued_method demo_world).
Proof.
  assert ("getTotalQueued" ∈ accessors) as Hin
    by (do 4 apply list_elem_of_further; apply list_elem_of_here).
  split; [exact Hin|]. split; [vm_compute; reflexivity|].
  apply (render_missing_accessor (H:=demo_host) (VObject 1) (text "#summary")
           (with_heap demo_heap_no_queued_method demo_world) "getTotalQueued");
    [exact Hin | vm_compute; reflexivity].
Defined.

(** C7 as stated fails.  [#missing] designates no element: the renderer
    returns normally, the fragment has been formatted and sits in the
    global [htmlstr], and the page is as it was. *)
Lemma render_unresolved_no_error :
  select (Host:=demo_host) (text "#missing") = [] ∧
  fst (RequestDataList (H:=demo_host) (VObject 1) (text "#missing") demo_world)
    = Ok (VPrim PUndefined) ∧
  globals (snd (RequestDataList (H:=demo_host) (VObject 1) (text "#missing")
                  demo_world)) !! "htmlstr"
    = Some (VPrim (PString demo_fragment)) ∧
  page (snd (RequestDataList (H:=demo_host) (VObject 1) (text "#missing")
               demo_world))
    = page demo_world.
Proof. repeat split; vm_compute; reflexivity. Qed.

(** The amended C7 on the example. *)
Lemma render_unresolved_container_witness :
  select (Host:=demo_host) (text "#missing") = [] ∧
  readings (H:=demo_host) (heap demo_world) (VObject 1)
    = Ok <$> ["3"; "100"; "50"; "10"; "2"; "8"; "1"; "4"; "3"; "2"] ∧
  RequestDataList (H:=demo_host) (VObject 1) (text "#missing") demo_world
  = (Ok (VPrim PUndefined),
     set_global "htmlstr"
       (VPrim (PString (fragment
          ["3"; "100"; "50"; "10"; "2"; "8"; "1"; "4"; "3"; "2"])))
       demo_world).
Proof.
  split; [reflexivity|]. split; [exact demo_readings|].
  apply (render_unresolved_container (H:=demo_host));
    [reflexivity | exact demo_readings].
Defined.

(** The structure of the box on the example. *)
Lemma format_box_structure_witness :
  fst (format (H:=demo_host) (VObject 1) demo_world)
    = Ok (VPrim (PString demo_fragment)) ∧
  ∃ ts items,
    readings (H:=demo_host) (heap demo_world) (VObject 1) = Ok <$> ts ∧
    VPrim (PString demo_fragment)
      = VPrim (PString ("<div class='requestSummaryBox'><ul>"
                        +:+ concat_all items +:+ "</ul></div>")) ∧
    length items = 10 ∧
    Forall2 (λ label it,
               String.prefix " " label = false ∧
               ∃ t, it = "<li> " +:+ label +:+ ": " +:+ t +:+ "</li>")
            labels items ∧
    occurrences "<li>" ("<div class='requestSummaryBox'><ul>"
                        +:+ concat_all items +:+ "</ul></div>")
      = 10 + sum_list (occurrences "<li>" <$> ts) ∧
    (Forall tag_free ts →
     occurrences "<li>" ("<div class='requestSummaryBox'><ul>"
                         +:+ concat_all items +:+ "</ul></div>") = 10).
Proof.
  assert (fst (format (H:=demo_host) (VObject 1) demo_world)
          = Ok (VPrim (PString demo_fragment))) as Hrun
    by (vm_compute; reflexivity).
  split; [exact Hrun|].
  exact (format_box_structure (H:=demo_host) (VObject 1) demo_world _ Hrun).
Defined.

(** * Further properties of the renderer *)

Section Further.
Context `{Host}.
Implicit Types (w : world) (h : gmap loc object) (summary data : value).

(** ** Where a failing call stops *)

Lemma accumulate_zip_throw (ls : list string) ts e rest ps acc :
  length ts < length ls →
  accumulate acc
    (zip_with (λ label (r : result string), item label <$> r) ls
       ((Ok <$> ts) ++ Throw e :: rest) ++ ps)
  = (Throw e, acc +:+ concat_all (zip_with item ls ts)).
Proof.
  revert ts acc; induction ls as [|l ls IH]; intros [|t ts] acc Hlen;
    simpl in *; try lia.
  - by rewrite append_empty_r.
  - rewrite IH by lia. by rewrite append_assoc.
Qed.

Lemma format_stops summary w ss ts e rest :
  get_prop (heap w) summary "summaryStruct" = Ok ss →
  readings (heap w) summary = (Ok <$> ts) ++ Throw e :: rest →
  format summary w =
  (Throw e,
   set_global "htmlstr"
     (VPrim (PString ("<div class='requestSummaryBox'><ul>"
                      +:+ concat_all (zip_with item labels ts)))) w).
Proof.
  intros Hss Hrs.
  assert (length ts < length labels) as Hlen.
  { apply (f_equal length) in Hrs.
    rewrite length_app, length_fmap in Hrs. simpl in *. lia. }
  rewrite format_denotation, Hss, Hrs. unfold pieces. cbn [app accumulate].
  rewrite accumulate_zip_throw by done. cbn [fmap result_fmap].
  by rewrite !append_assoc.
Qed.

(** X1. When [summaryStruct] can be read, the first readings succeed
    with texts [ts] and the next one throws [e], the renderer throws [e]
    itself, writes no element, and leaves in the global [htmlstr] the
    opening of the box and the items of [ts]: neither what [htmlstr] held
    before nor a closed fragment. *)
Theorem render_stops_at_first_failure data c w ss ts e rest :
  get_prop (heap w) data "summaryStruct" = Ok ss →
  readings (heap w) data = (Ok <$> ts) ++ Throw e :: rest →
  RequestDataList data c w =
  (Throw e,
   set_global "htmlstr"
     (VPrim (PString ("<div class='requestSummaryBox'><ul>"
                      +:+ concat_all (zip_with item labels ts)))) w).
Proof.
  intros Hss Hrs.
  by rewrite RequestDataList_unfold, (format_stops _ _ _ _ _ _ Hss Hrs).
Qed.

(** X2. Called with [undefined] or [null] for the summary, the renderer
    throws a TypeError at the first statement of [format] and leaves the
    whole world as it was, [htmlstr] included. *)
Theorem render_without_summary data c w :
  data = VPrim PUndefined ∨ data = VPrim PNull →
  RequestDataList data c w = (Throw TypeError, w).
Proof.
  intros [-> | ->]; by rewrite RequestDataList_unfold, format_denotation.
Qed.

(** X3. A summary whose [summaryStruct] is [undefined] (the property is
    absent) or [null] makes the renderer throw a TypeError at the first
    item: [htmlstr] holds the opening of the box and nothing else, and no
    element is written. *)
Theorem render_without_struct data c w p :
  get_prop (heap w) data "summaryStruct" = Ok (VPrim p) →
  p = PUndefined ∨ p = PNull →
  RequestDataList data c w =
  (Throw TypeError,
   set_global "htmlstr"
     (VPrim (PString "<div class='requestSummaryBox'><ul>")) w).
Proof.
  intros Hss Hp.
  assert (∃ rest, readings (heap w) data
                  = (Ok <$> []) ++ Throw TypeError :: rest) as [rest Hrs].
  { unfold readings, observations, text_of. cbn [fmap list_fmap].
    rewrite Hss. destruct Hp as [-> | ->]; by eexists. }
  rewrite RequestDataList_unfold, (format_stops _ _ _ _ _ _ Hss Hrs).
  reflexivity.
Qed.

Lemma collect_throw_lookup {A} (rs : list (result A)) e :
  collect rs = Throw e → ∃ j, rs !! j = Some (Throw e).
Proof.
  induction rs as [|[a|e0] rs IH]; simpl; [done|..].
  - destruct (collect rs) as [l|e1]; [done|]. intros [= ->].
    destruct IH as [j Hj]; [done|]. by exists (S j).
  - intros [= ->]. by exists 0.
Qed.

(** X4. A field that the [summaryStruct] object does not have raises no
    error: its reading is the text [undefined]; if [format] throws, it
    throws what another reading threw; and when [format] returns, the
    item of that field reads [undefined]. *)
Theorem missing_field_renders_undefined summary w l o i name :
  get_prop (heap w) summary "summaryStruct" = Ok (VObject l) →
  heap w !! l = Some o →
  struct_fields !! i = Some name →
  props o !! name = None →
  readings (heap w) summary !! i = Some (Ok "undefined") ∧
  (∀ e, fst (format summary w) = Throw e →
     ∃ j, j ≠ i ∧ readings (heap w) summary !! j = Some (Throw e)) ∧
  (∀ v, fst (format summary w) = Ok v →
     ∃ ts, v = VPrim (PString (fragment ts)) ∧
           ts !! i = Some "undefined" ∧
           zip_with item labels ts !! i
           = (λ label, "<li> " +:+ label +:+ ": undefined</li>")
               <$> labels !! i).
Proof.
  intros Hss Hl Hi Hname.
  assert (readings (heap w) summary !! i = Some (Ok "undefined")) as Hri.
  { unfold readings, observations, text_of. cbn [fmap list_fmap].
    rewrite Hss. cbn [mbind result_bind get_prop]. rewrite Hl.
    destruct i as [|[|[|i]]]; simplify_eq/=; by rewrite Hname. }
  split_and!; [done|..].
  - intros e. rewrite format_collect.
    destruct (collect _) as [ts|e'] eqn:Hts; [done|]. intros [= ->].
    destruct (collect_throw_lookup _ _ Hts) as [j Hj].
    exists j. split; [|done]. intros ->. congruence.
  - intros v. rewrite format_collect.
    destruct (collect _) as [ts|e] eqn:Hts; [|done]. intros [= <-].
    apply collect_ok in Hts. exists ts.
    assert (ts !! i = Some "undefined") as Hti.
    { rewrite Hts, list_lookup_fmap in Hri.
      destruct (ts !! i); by simplify_eq/=. }
    split_and!; [done..|].
    rewrite lookup_zip_with, Hti.
    destruct i as [|[|[|i]]]; by simplify_eq/=.
Qed.

(** ** What a call leaves alone *)

(** X5. Whatever its outcome, [format] changes no global binding other
    than [htmlstr]; it writes neither the heap nor the page. *)
Theorem format_touches_only_htmlstr summary w x :
  x ≠ "htmlstr" →
  globals (snd (format summary w)) !! x = globals w !! x ∧
  heap (snd (format summary w)) = heap w ∧
  page (snd (format summary w)) = page w.
Proof.
  intros Hx. destruct (format_frame summary w) as (Hh & Hp & Hg).
  split_and!; [by apply Hg | done..].
Qed.

(** X7. Whenever [format] returns a value, that value is what the global
    [htmlstr] holds afterwards. *)
Theorem format_leaves_result_in_htmlstr summary w v :
  fst (format summary w) = Ok v →
  globals (snd (format summary w)) !! "htmlstr" = Some v.
Proof.
  rewrite format_denotation.
  destruct (get_prop _ _ _); [|done].
  destruct (accumulate _ _) as [[s|e] acc] eqn:Hacc; [|done].
  apply accumulate_ok in Hacc as ->. intros [= <-]. simpl.
  by rewrite lookup_insert_eq.
Qed.

(** ** A call after another *)

(** X8. A call for a summary whose readings succeed wipes out an earlier
    call on the same container, whatever that call was for and however it
    ended: outcome and world are those of the later call alone. *)
Theorem render_overrides_earlier data data' c w ts :
  readings (heap w) data = Ok <$> ts →
  RequestDataList data c (snd (RequestDataList data' c w))
  = RequestDataList data c w.
Proof.
  intros Hrs.
  destruct (RequestDataList_frame data' c w) as (Hh & Hg & _).
  pose proof (RequestDataList_other_elements data' c w) as Hp.
  destruct (RequestDataList data' c w) as [r w1]; simpl in *.
  rewrite (RequestDataList_success data c w1 ts) by by rewrite Hh.
  rewrite (RequestDataList_success data c w ts) by done.
  f_equal. unfold set_page, set_global; simpl. f_equal; [|done|].
  - apply map_eq; intros x. rewrite !lookup_insert.
    case_decide; [done | by apply Hg].
  - apply map_eq; intros n. rewrite !lookup_fill.
    case_decide; [done | by apply Hp].
Qed.

End Further.

(** ** The further properties on the examples *)

(** X1 on the summary without [getTotalQueued]: seven items are in
    [htmlstr] when the call of the absent method throws. *)
Lemma render_stops_at_first_failure_witness :
  get_prop (heap (with_heap demo_heap_no_queued_method demo_world))
    (VObject 1) "summaryStruct" = Ok (VObject 2) ∧
  readings (H:=demo_host) (heap (with_heap demo_heap_no_queued_method demo_world))
    (VObject 1)
    = (Ok <$> ["3"; "100"; "50"; "10"; "2"; "8"; "1"])
      ++ Throw TypeError :: [Ok "3"; Ok "2"] ∧
  RequestDataList (H:=demo_host) (VObject 1) (text "#summary")
    (with_heap demo_heap_no_queued_method demo_world)
  = (Throw TypeError,
     set_global "htmlstr"
       (VPrim (PString ("<div class='requestSummaryBox'><ul>"
          +:+ concat_all (zip_with item labels
                            ["3"; "100"; "50"; "10"; "2"; "8"; "1"]))))
       (with_heap demo_heap_no_queued_method demo_world)).
Proof.
  assert (get_prop (heap (with_heap demo_heap_no_queued_method demo_world))
            (VObject 1) "summaryStruct" = Ok (VObject 2)) as Hss
    by (vm_compute; reflexivity).
  assert (readings (H:=demo_host)
            (heap (with_heap demo_heap_no_queued_method demo_world)) (VObject 1)
          = (Ok <$> ["3"; "100"; "50"; "10"; "2"; "8"; "1"])
            ++ Throw TypeError :: [Ok "3"; Ok "2"]) as Hrs
    by (vm_compute; reflexivity).
  split; [exact Hss|]. split; [exact Hrs|].
  exact (render_stops_at_first_failure (H:=demo_host) _ _ _ _ _ _ _ Hss Hrs).
Defined.

(** X2 on [undefined]. *)
Lemma render_without_summary_witness :
  (VPrim PUndefined = VPrim PUndefined ∨ VPrim PUndefined = VPrim PNull) ∧
  RequestDataList (H:=demo_host) (VPrim PUndefined) (text "#summary") demo_world
  = (Throw TypeError, demo_world).
Proof.
  split; [by left|].
  apply (render_without_summary (H:=demo_host)). by left.
Defined.

(** X3 on a summary object without any property. *)
Lemma render_without_struct_witness :
  get_prop (heap bare_world) (VObject 1) "summaryStruct"
    = Ok (VPrim PUndefined) ∧
  (PUndefined = PUndefined ∨ PUndefined = PNull) ∧
  RequestDataList (H:=demo_host) (VObject 1) (text "#summary") bare_world
  = (Throw TypeError,
     set_global "htmlstr"
       (VPrim (PString "<div class='requestSummaryBox'><ul>")) bare_world).
Proof.
  assert (get_prop (heap bare_world) (VObject 1) "summaryStruct"
          = Ok (VPrim PUndefined)) as Hss by (vm_compute; reflexivity).
  split; [exact Hss|]. split; [by left|].
  apply (render_without_struct (H:=demo_host) _ _ _ PUndefined);
    [exact Hss | by left].
Defined.

(** X4 on the example without [totalEvents]. *)
Lemma missing_field_renders_undefined_witness :
  get_prop (heap (with_heap demo_heap_no_total_events demo_world))
    (VObject 1) "summaryStruct" = Ok (VObject 2) ∧
  heap (with_heap demo_heap_no_total_events demo_world) !! 2%positive
    = Some (plain [("length", num 3); ("processedEvents", num 50)]) ∧
  struct_fields !! 1 = Some "totalEvents" ∧
  props (plain [("length", num 3); ("processedEvents", num 50)])
    !! "totalEvents" = None ∧
  readings (H:=demo_host)
    (heap (with_heap demo_heap_no_total_events demo_world)) (VObject 1) !! 1
    = Some (Ok "undefined") ∧
  (∀ e, fst (format (H:=demo_host) (VObject 1)
               (with_heap demo_heap_no_total_events demo_world)) = Throw e →
     ∃ j, j ≠ 1 ∧
          readings (H:=demo_host)
            (heap (with_heap demo_heap_no_total_events demo_world))
            (VObject 1) !! j = Some (Throw e)) ∧
  (∀ v, fst (format (H:=demo_host) (VObject 1)
               (with_heap demo_heap_no_total_events demo_world)) = Ok v →
     ∃ ts, v = VPrim (PString (fragment ts)) ∧
           ts !! 1 = Some "undefined" ∧
           zip_with item labels ts !! 1
           = (λ label, "<li> " +:+ label +:+ ": undefined</li>")
               <$> labels !! 1).
Proof.
  split; [vm_compute; reflexivity|]. split; [vm_compute; reflexivity|].
  split; [reflexivity|]. split; [vm_compute; reflexivity|].
  apply (missing_field_renders_undefined (H:=demo_host) (VObject 1)
           (with_heap demo_heap_no_total_events demo_world) 2%positive
           (plain [("length", num 3); ("processedEvents", num 50)])
           1 "totalEvents");
    [vm_compute; reflexivity | vm_compute; reflexivity | reflexivity
    | vm_compute; reflexivity].
Defined.

(** X5 on the example, for a global named [WMStats]. *)
Lemma format_touches_only_htmlstr_witness :
  "WMStats" ≠ "htmlstr" ∧
  globals (snd (format (H:=demo_host) (VObject 1) demo_world)) !! "WMStats"
    = globals demo_world !! "WMStats" ∧
  heap (snd (format (H:=demo_host) (VObject 1) demo_world)) = heap demo_world ∧
  page (snd (format (H:=demo_host) (VObject 1) demo_world)) = page demo_world.
Proof.
  assert ("WMStats" ≠ "htmlstr") as Hne by discriminate.
  split; [exact Hne|].
  exact (format_touches_only_htmlstr (H:=demo_host) (VObject 1) demo_world
           "WMStats" Hne).
Defined.

(** X7 on the example. *)
Lemma format_leaves_result_in_htmlstr_witness :
  fst (format (H:=demo_host) (VObject 1) demo_world)
    = Ok (VPrim (PString demo_fragment)) ∧
  globals (snd (format (H:=demo_host) (VObject 1) demo_world)) !! "htmlstr"
    = Some (VPrim (PString demo_fragment)).
Proof.
  assert (fst (format (H:=demo_host) (VObject 1) demo_world)
          = Ok (VPrim (PString demo_fragment))) as Hrun
    by (vm_compute; reflexivity).
  split; [exact Hrun|].
  exact (format_leaves_result_in_htmlstr (H:=demo_host) _ _ _ Hrun).
Defined.

(** The readings of the second summary. *)
Lemma second_readings :
  readings (H:=demo_host) second_heap (VObject 31)
  = Ok <$> ["1"; "7"; "7"; "1"; "0"; "1"; "0"; "0"; "0"; "0"].
Proof. vm_compute. reflexivity. Defined.

(** X8 on the examples: the second summary rendered after the first,
    into the same container. *)
Lemma render_overrides_earlier_witness :
  readings (H:=demo_host) (heap (with_heap second_heap demo_world)) (VObject 31)
    = Ok <$> ["1"; "7"; "7"; "1"; "0"; "1"; "0"; "0"; "0"; "0"] ∧
  RequestDataList (H:=demo_host) (VObject 31) (text "#summary")
    (snd (RequestDataList (H:=demo_host) (VObject 1) (text "#summary")
            (with_heap second_heap demo_world)))
  = RequestDataList (H:=demo_host) (VObject 31) (text "#summary")
      (with_heap second_heap demo_world).
Proof.
  split; [exact second_readings|].
  exact (render_overrides_earlier (H:=demo_host) (VObject 31) (VObject 1)
           (text "#summary") (with_heap second_heap demo_world) _
           second_readings).
Defined.


